(** * PyMataOSC_v4: OSC-to-Firmata bridge — value mapping, handlers, address pairing

    A shallow embedding of [PyMataOSC_v4.py].

    Numbers.  The script runs under [from __future__ import division], so
    [/] is true division and every [map_value] result is a Python float.
    Floats are idealised here as exact rationals ([Q]); configuration
    entries and OSC message values are integers ([Z]), injected into [Q]
    where the script mixes them with floats.  [int(x)] on a float truncates
    toward zero.  Division by zero raises [ZeroDivisionError] in Python
    (for ints and floats alike) and is kept as an explicit exception.
    The concrete messages evaluated below give the same integers in
    binary64 arithmetic as they do over the rationals.

    Effects.  The configuration is a tree of dicts mutated in place by the
    control-change handler; the board is an external object whose method
    calls are recorded in a log.  [print] output is not modelled. *)

From Stdlib Require Import ZArith QArith Qfield Bool List String Ascii Lia.
From Stdlib Require Import DecimalString.
From Stdlib Require Import Lqa.
Import ListNotations.

Local Open Scope Z_scope.

(** ** Exceptions and results *)

Inductive exn : Type :=
| ZeroDivisionError
| IndexError
| ValueError.

Inductive result (A : Type) : Type :=
| Ok (a : A)
| Raise (e : exn).

Arguments Ok {A} a.
Arguments Raise {A} e.

(** ** A state-and-exception monad

    A raised exception keeps the state reached so far: mutations made
    before the exception stay visible, as in Python. *)

Module Py.

Definition M (St A : Type) : Type := St -> result A * St.

Definition ret {St A} (a : A) : M St A := fun s => (Ok a, s).

Definition raise {St A} (e : exn) : M St A := fun s => (Raise e, s).

Definition bind {St A B} (m : M St A) (k : A -> M St B) : M St B :=
  fun s =>
    match m s with
    | (Ok a, s') => k a s'
    | (Raise e, s') => (Raise e, s')
    end.

Definition get {St} : M St St := fun s => (Ok s, s).

Definition modify {St} (f : St -> St) : M St unit := fun s => (Ok tt, f s).

Definition lift {St A} (r : result A) : M St A := fun s => (r, s).

Definition when {St} (b : bool) (m : M St unit) : M St unit :=
  if b then m else ret tt.

End Py.

Declare Scope py_scope.
Delimit Scope py_scope with py.
Notation "x <- m ;; k" := (Py.bind m (fun x => k))
  (at level 61, m at next level, right associativity) : py_scope.
Notation "m ;;; k" := (Py.bind m (fun _ => k))
  (at level 61, right associativity) : py_scope.

(** ** Numbers *)

(** [int(x)] for a float [x]: truncation toward zero. *)
Definition int (x : Q) : Z := Z.quot (Qnum x) (Zpos (Qden x)).

(** [map_value(x, lower, upper, min, max)], line 59.  The only operation
    that can fail is the division. *)
Definition map_value (x lower upper min max : Q) : result Q :=
  if Qeq_bool (upper - lower) 0
  then Raise ZeroDivisionError
  else Ok (min + ((x - lower) / (upper - lower)) * (max - min))%Q.

(** The value [map_value] returns when the division succeeds. *)
Definition affine (x lower upper min max : Q) : Q :=
  (min + ((x - lower) / (upper - lower)) * (max - min))%Q.

(** ** Configuration (the [config.json] tree) *)

Record Pos : Type := mkPos {
  pos_home : Z;
  pos_max : Z;
  pos_abs_min : Z;
  pos_abs_max : Z
}.

Record ServoCC : Type := mkServoCC {
  cc_home : Z;
  cc_max : Z
}.

Record Servo : Type := mkServo {
  note : Z;
  pwm_pin : Z;
  cc : ServoCC;
  reverse_servo_direction : bool;
  reverse_home_direction : bool;
  reverse_max_direction : bool;
  pos : Pos
}.

Record Stepper : Type := mkStepper {
  direction_pin : Z;
  step_pin : Z;
  cc_speed : Z;
  move_direction : Z;
  min_speed : Z;
  max_speed : Z
}.

Record Config : Type := mkConfig {
  cfg_midi_min : Z;
  cfg_midi_max : Z;
  cfg_port : Z;
  cfg_led_pin : Z;
  servo : list Servo;
  stepper : Stepper
}.

(** In-place updates [c["pos"]["home"] = v] and [c["pos"]["max"] = v]. *)
Definition set_home (v : Z) (c : Servo) : Servo :=
  mkServo (note c) (pwm_pin c) (cc c) (reverse_servo_direction c)
          (reverse_home_direction c) (reverse_max_direction c)
          (mkPos v (pos_max (pos c)) (pos_abs_min (pos c)) (pos_abs_max (pos c))).

Definition set_max (v : Z) (c : Servo) : Servo :=
  mkServo (note c) (pwm_pin c) (cc c) (reverse_servo_direction c)
          (reverse_home_direction c) (reverse_max_direction c)
          (mkPos (pos_home (pos c)) v (pos_abs_min (pos c)) (pos_abs_max (pos c))).

Definition set_servo (l : list Servo) (cfg : Config) : Config :=
  mkConfig (cfg_midi_min cfg) (cfg_midi_max cfg) (cfg_port cfg) (cfg_led_pin cfg)
           l (stepper cfg).

(** ** The board: a log of the Firmata calls made so far *)

Inductive BoardCmd : Type :=
| analog_write (pin value : Z)
| timerthree_set_frequency (freq : Z)
| timerthree_pwm (pin duty : Z).

Definition Board : Type := list BoardCmd.

(** ** Module globals

    [board] is [None] until the serial connection is made; [midi_min],
    [midi_max], [step_pin] and [duty_cycle] are set by the main block
    (lines 204-210) from the configuration. *)

Record World : Type := mkWorld {
  board : option Board;
  config : Config;
  midi_min : Z;
  midi_max : Z;
  g_step_pin : Z;
  duty_cycle : Z
}.

Definition init_globals (cfg : Config) (b : option Board) : World :=
  mkWorld b cfg (cfg_midi_min cfg) (cfg_midi_max cfg) (step_pin (stepper cfg)) 511.

Definition with_board (b : Board) (w : World) : World :=
  mkWorld (Some b) (config w) (midi_min w) (midi_max w) (g_step_pin w) (duty_cycle w).

Definition with_state (l : list Servo) (b : Board) (w : World) : World :=
  mkWorld (Some b) (set_servo l (config w)) (midi_min w) (midi_max w)
          (g_step_pin w) (duty_cycle w).

(** [data[i]] on the OSC argument list. *)
Definition index (data : list Z) (i : nat) : result Z :=
  match nth_error data i with
  | Some v => Ok v
  | None => Raise IndexError
  end.

Local Open Scope py_scope.

(** The [reverse_servo_direction] re-mapping shared by lines 95-97, 125-127
    and 134-136. *)
Definition reverse_servo {St} (c : Servo) (servo_pos : Q) : Py.M St Q :=
  if reverse_servo_direction c
  then Py.lift (map_value servo_pos
                  (inject_Z (pos_abs_min (pos c))) (inject_Z (pos_abs_max (pos c)))
                  (inject_Z (pos_abs_max (pos c))) (inject_Z (pos_abs_min (pos c))))
  else Py.ret servo_pos.

(** ** Note handler (lines 78-98) *)

(** The body of [for c in config["servo"]], lines 93-98; the state is the
    board. *)
Definition note_servo (w : World) (nt velocity : Z) (c : Servo) : Py.M Board unit :=
  if nt =? note c then
    servo_pos <- Py.lift (map_value (inject_Z velocity)
                            (inject_Z (midi_min w)) (inject_Z (midi_max w))
                            (inject_Z (pos_home (pos c))) (inject_Z (pos_max (pos c)))) ;;
    servo_pos <- reverse_servo c servo_pos ;;
    Py.modify (fun b => b ++ [analog_write (pwm_pin c) (int servo_pos)])
  else Py.ret tt.

(** The loop itself: there is no [break], every servo is visited unless an
    exception leaves the loop. *)
Fixpoint note_loop (w : World) (nt velocity : Z) (cs : list Servo) : Py.M Board unit :=
  match cs with
  | [] => Py.ret tt
  | c :: rest => note_servo w nt velocity c ;;; note_loop w nt velocity rest
  end.

(** [note_handler(addr, tags, data, client_address)]; only [data] is used
    outside the [print]. *)
Definition note_handler (data : list Z) : Py.M World unit :=
  chan <- Py.lift (index data 0) ;;
  nt <- Py.lift (index data 1) ;;
  velocity <- Py.lift (index data 2) ;;
  w <- Py.get ;;
  match board w with
  | None => Py.ret tt
  | Some b =>
      fun _ =>
        let (r, b') := note_loop w nt velocity (servo (config w)) b in
        (r, with_board b' w)
  end.

(** ** Control-change handler (lines 104-143) *)

(** What one iteration of the servo loop can touch: the dict [c] it is
    looking at, the handler-local variable [ccVal], and the board. *)
Record Frame : Type := mkFrame {
  cur : Servo;
  ccVal : Q;
  brd : Board
}.

Definition set_ccVal (v : Q) : Py.M Frame unit :=
  Py.modify (fun f => mkFrame (cur f) v (brd f)).

Definition update_cur (g : Servo -> Servo) : Py.M Frame unit :=
  Py.modify (fun f => mkFrame (g (cur f)) (ccVal f) (brd f)).

Definition send (cmd : BoardCmd) : Py.M Frame unit :=
  Py.modify (fun f => mkFrame (cur f) (ccVal f) (brd f ++ [cmd])).

(** The loop body, lines 119-137.  The fields read after the assignment to
    [c["pos"]["home"]] or [c["pos"]["max"]] are not the assigned ones, so
    [c] is read once. *)
Definition cc_servo (w : World) (ccNum : Z) : Py.M Frame unit :=
  f0 <- Py.get ;;
  let c := cur f0 in
  let lo := inject_Z (midi_min w) in
  let hi := inject_Z (midi_max w) in
  if ccNum =? cc_home (cc c) then
    Py.when (reverse_home_direction c)
      (f <- Py.get ;; v <- Py.lift (map_value (ccVal f) lo hi hi lo) ;; set_ccVal v) ;;;
    f <- Py.get ;;
    servo_pos <- Py.lift (map_value (ccVal f) lo hi
                            (inject_Z (pos_abs_min (pos c))) (inject_Z (pos_abs_max (pos c)))) ;;
    update_cur (set_home (int servo_pos)) ;;;
    servo_pos <- reverse_servo c servo_pos ;;
    send (analog_write (pwm_pin c) (int servo_pos))
  else if ccNum =? cc_max (cc c) then
    Py.when (reverse_max_direction c)
      (f <- Py.get ;; v <- Py.lift (map_value (ccVal f) lo hi hi lo) ;; set_ccVal v) ;;;
    f <- Py.get ;;
    servo_pos <- Py.lift (map_value (ccVal f) lo hi
                            (inject_Z (pos_home (pos c))) (inject_Z (pos_abs_max (pos c)))) ;;
    update_cur (set_max (int servo_pos)) ;;;
    servo_pos <- reverse_servo c servo_pos ;;
    send (analog_write (pwm_pin c) (int servo_pos))
  else Py.ret tt.

(** State of the whole loop: the servo list as mutated so far, [ccVal] and
    the board. *)
Record Loop : Type := mkLoop {
  servos : list Servo;
  l_ccVal : Q;
  l_brd : Board
}.

(** [for c in config["servo"]], line 118.  When the body raises, the dict
    it was working on keeps what was already assigned and the remaining
    servos are left as they were. *)
Fixpoint cc_loop (w : World) (ccNum : Z) (cs : list Servo) (v : Q) (b : Board)
  : result unit * Loop :=
  match cs with
  | [] => (Ok tt, mkLoop [] v b)
  | c :: rest =>
      match cc_servo w ccNum (mkFrame c v b) with
      | (Ok _, f) =>
          let (r, l) := cc_loop w ccNum rest (ccVal f) (brd f) in
          (r, mkLoop (cur f :: servos l) (l_ccVal l) (l_brd l))
      | (Raise e, f) => (Raise e, mkLoop (cur f :: rest) (ccVal f) (brd f))
      end
  end.

(** The stepper branch, lines 139-143; it reads [ccVal] as the servo loop
    left it. *)
Definition cc_stepper (w : World) (ccNum : Z) (v : Q) : Py.M Board unit :=
  if ccNum =? cc_speed (stepper (config w)) then
    stepper_speed <- Py.lift (map_value v
                                (inject_Z (midi_min w)) (inject_Z (midi_max w))
                                (inject_Z (min_speed (stepper (config w))))
                                (inject_Z (max_speed (stepper (config w))))) ;;
    Py.modify (fun b => b ++ [timerthree_set_frequency (int stepper_speed)]) ;;;
    Py.modify (fun b => b ++ [timerthree_pwm (g_step_pin w) (duty_cycle w)])
  else Py.ret tt.

Definition cc_handler (data : list Z) : Py.M World unit :=
  chan <- Py.lift (index data 0) ;;
  ccNum <- Py.lift (index data 1) ;;
  ccVal0 <- Py.lift (index data 2) ;;
  w <- Py.get ;;
  match board w with
  | None => Py.ret tt
  | Some b =>
      fun _ =>
        match cc_loop w ccNum (servo (config w)) (inject_Z ccVal0) b with
        | (Ok _, l) =>
            let (r, b') := cc_stepper w ccNum (l_ccVal l) (l_brd l) in
            (r, with_state (servos l) b' w)
        | (Raise e, l) => (Raise e, with_state (servos l) (l_brd l) w)
        end
  end.

(** ** Address selector (lines 159-172 and 226-242) *)

(** [s[-3:]]: the last three characters, or all of [s] when it is shorter. *)
Definition last3 (s : string) : string :=
  substring (String.length s - 3) 3 s.

Definition is_space (a : ascii) : bool :=
  match nat_of_ascii a with
  | 9%nat | 10%nat | 11%nat | 12%nat | 13%nat | 32%nat => true
  | _ => false
  end.

Definition digit_of (a : ascii) : option Z :=
  let n := Z.of_nat (nat_of_ascii a) in
  if (48 <=? n) && (n <=? 57) then Some (n - 48) else None.

Fixpoint lstrip (s : string) : string :=
  match s with
  | String a s' => if is_space a then lstrip s' else s
  | EmptyString => EmptyString
  end.

(** Digits followed only by white space, read left to right. *)
Fixpoint digits (acc : Z) (seen : bool) (s : string) : result Z :=
  match s with
  | EmptyString => if seen then Ok acc else Raise ValueError
  | String a s' =>
      match digit_of a with
      | Some d => digits (10 * acc + d) true s'
      | None =>
          if seen && (match lstrip s with EmptyString => true | _ => false end)
          then Ok acc else Raise ValueError
      end
  end.

(** [int(s)] for a string: optional white space around an optionally
    signed decimal literal; anything else is a [ValueError]. *)
Definition int_of_str (s : string) : result Z :=
  match lstrip s with
  | String "-"%char s' =>
      match digits 0 false s' with Ok n => Ok (- n) | Raise e => Raise e end
  | String "+"%char s' => digits 0 false s'
  | s' => digits 0 false s'
  end.

(** [str(n)] for an integer. *)
Definition str (n : Z) : string := NilZero.string_of_int (Z.to_int n).

Definition bind_result {A B} (r : result A) (k : A -> result B) : result B :=
  match r with
  | Ok a => k a
  | Raise e => Raise e
  end.

Definition getIPAddress2 (address : string) : result string :=
  bind_result (int_of_str (last3 address)) (fun endNum =>
  let endNumNew := if endNum mod 2 =? 0 then endNum + 1 else endNum - 1 in
  Ok ("192.168.1." ++ str endNumNew)%string).

(** Lines 227-236: [address1] is what [getIPAddress()] discovered; the
    result is [(addressWLAN, addressLAN)]. *)
Definition classify (address1 : string) : result (string * string) :=
  bind_result (getIPAddress2 address1) (fun address2 =>
  bind_result (int_of_str (last3 address1)) (fun endNum =>
  if endNum mod 2 =? 0 then Ok (address1, address2) else Ok (address2, address1))).

(** Lines 239-242: the address the OSC server is bound to. *)
Definition bind_address (argv : list string) (address1 : string) : result string :=
  bind_result (classify address1) (fun '(addressWLAN, addressLAN) =>
  match argv with
  | _ :: arg :: _ => if String.eqb arg "LAN" then Ok addressLAN else Ok addressWLAN
  | _ => Ok addressWLAN
  end).

(** A dotted-quad address as the socket layer prints it. *)
Definition dotted (a b c d : Z) : string :=
  (str a ++ "." ++ str b ++ "." ++ str c ++ "." ++ str d)%string.

(** ** Exception-free readings, used to state results *)

(** The position a matching servo is sent to when no division fails. *)
Definition note_target (w : World) (velocity : Z) (c : Servo) : Q :=
  let p := affine (inject_Z velocity) (inject_Z (midi_min w)) (inject_Z (midi_max w))
                  (inject_Z (pos_home (pos c))) (inject_Z (pos_max (pos c))) in
  if reverse_servo_direction c
  then affine p (inject_Z (pos_abs_min (pos c))) (inject_Z (pos_abs_max (pos c)))
                (inject_Z (pos_abs_max (pos c))) (inject_Z (pos_abs_min (pos c)))
  else p.

Definition note_write (w : World) (velocity : Z) (c : Servo) : BoardCmd :=
  analog_write (pwm_pin c) (int (note_target w velocity c)).

(** No division by zero can happen for a servo: the re-mapping of
    [reverse_servo_direction] divides by [abs_max - abs_min]. *)
Definition abs_range_ok (c : Servo) : Prop :=
  reverse_servo_direction c = true -> pos_abs_min (pos c) <> pos_abs_max (pos c).


(** *** Control change *)

Definition cc_matches (ccNum : Z) (c : Servo) : bool :=
  (ccNum =? cc_home (cc c)) || (ccNum =? cc_max (cc c)).

(** Does the iteration for [c] overwrite [ccVal]?  The [elif] makes the
    home branch win when both CC numbers coincide. *)
Definition cc_reverses (ccNum : Z) (c : Servo) : bool :=
  if ccNum =? cc_home (cc c) then reverse_home_direction c
  else if ccNum =? cc_max (cc c) then reverse_max_direction c
  else false.

(** [ccVal] after the iteration for [c], entered with [ccVal = v]. *)
Definition cc_next (w : World) (ccNum : Z) (v : Q) (c : Servo) : Q :=
  if cc_reverses ccNum c
  then affine v (inject_Z (midi_min w)) (inject_Z (midi_max w))
                (inject_Z (midi_max w)) (inject_Z (midi_min w))
  else v.

(** [ccVal] after the loop has gone through [cs]. *)
Fixpoint cc_seen (w : World) (ccNum : Z) (cs : list Servo) (v : Q) : Q :=
  match cs with
  | [] => v
  | c :: rest => cc_seen w ccNum rest (cc_next w ccNum v c)
  end.

(** [servo_pos] as first computed (lines 123 and 132), before the
    [reverse_servo_direction] re-mapping. *)
Definition cc_pos (w : World) (ccNum : Z) (v : Q) (c : Servo) : Q :=
  affine (cc_next w ccNum v c) (inject_Z (midi_min w)) (inject_Z (midi_max w))
         (inject_Z (if ccNum =? cc_home (cc c)
                    then pos_abs_min (pos c) else pos_home (pos c)))
         (inject_Z (pos_abs_max (pos c))).

(** [servo_pos] as passed to [analog_write]. *)
Definition cc_out (w : World) (ccNum : Z) (v : Q) (c : Servo) : Q :=
  if reverse_servo_direction c
  then affine (cc_pos w ccNum v c)
              (inject_Z (pos_abs_min (pos c))) (inject_Z (pos_abs_max (pos c)))
              (inject_Z (pos_abs_max (pos c))) (inject_Z (pos_abs_min (pos c)))
  else cc_pos w ccNum v c.

Definition cc_update (w : World) (ccNum : Z) (v : Q) (c : Servo) : Servo :=
  if ccNum =? cc_home (cc c) then set_home (int (cc_pos w ccNum v c)) c
  else if ccNum =? cc_max (cc c) then set_max (int (cc_pos w ccNum v c)) c
  else c.

Definition cc_writes (w : World) (ccNum : Z) (v : Q) (c : Servo) : list BoardCmd :=
  if cc_matches ccNum c
  then [analog_write (pwm_pin c) (int (cc_out w ccNum v c))]
  else [].

Fixpoint cc_updates (w : World) (ccNum : Z) (cs : list Servo) (v : Q) : list Servo :=
  match cs with
  | [] => []
  | c :: rest => cc_update w ccNum v c :: cc_updates w ccNum rest (cc_next w ccNum v c)
  end.

Fixpoint cc_log (w : World) (ccNum : Z) (cs : list Servo) (v : Q) : list BoardCmd :=
  match cs with
  | [] => []
  | c :: rest => cc_writes w ccNum v c ++ cc_log w ccNum rest (cc_next w ccNum v c)
  end.

Definition stepper_log (w : World) (ccNum : Z) (v : Q) : list BoardCmd :=
  if ccNum =? cc_speed (stepper (config w))
  then [timerthree_set_frequency
          (int (affine v (inject_Z (midi_min w)) (inject_Z (midi_max w))
                         (inject_Z (min_speed (stepper (config w))))
                         (inject_Z (max_speed (stepper (config w))))));
        timerthree_pwm (g_step_pin w) (duty_cycle w)]
  else [].

(** ** Sample configurations *)

Definition demo_stepper : Stepper := mkStepper 2 3 30 1 0 1000.

(** A servo on pin [pin] answering note 60 and CC 20 (home) / 21 (max),
    with range 10..100 inside 0..200. *)
Definition demo_servo (pin : Z) (rev_servo rev_home rev_max : bool) : Servo :=
  mkServo 60 pin (mkServoCC 20 21) rev_servo rev_home rev_max (mkPos 10 100 0 200).

Definition demo_world (cs : list Servo) : World :=
  init_globals (mkConfig 0 127 2346 13 cs demo_stepper) (Some []).

(** Two servos sharing home controller 20, the first with
    [reverse_home_direction]; the stepper listens on 20 as well. *)
Definition shared_cc_world (rev_first : bool) : World :=
  init_globals
    (mkConfig 0 127 2346 13
              [demo_servo 9 false rev_first false; demo_servo 10 false false false]
              (mkStepper 2 3 20 1 0 1000))
    (Some []).

(** ** Checks and tactics used below *)

(** An octet prints on three characters and reads back as itself. *)
Definition octet_ok (d : Z) : bool :=
  (String.length (str d) =? 3)%nat &&
  match int_of_str (str d) with
  | Ok n => n =? d
  | Raise _ => false
  end.

(** Case analysis on the scrutinee of the first [match] that is not itself
    blocked by another one. *)
Ltac case_head :=
  match goal with
  | H : ?x = _ |- context [match ?x with _ => _ end] => rewrite H
  | |- context [match ?x with _ => _ end] =>
      lazymatch x with
      | context [match _ with _ => _ end] => fail
      | _ => destruct x eqn:?
      end
  end;
  cbn [cur ccVal brd fst snd set_home set_max cc pos pwm_pin
       reverse_servo_direction reverse_home_direction reverse_max_direction
       pos_home pos_max pos_abs_min pos_abs_max] in *.

(** ** Relations used to state what the handlers keep *)

(** [c'] is [c] up to its calibrated [home] and [max]. *)
Definition same_wiring (c c' : Servo) : Prop :=
  note c' = note c /\ pwm_pin c' = pwm_pin c /\ cc c' = cc c /\
  reverse_servo_direction c' = reverse_servo_direction c /\
  reverse_home_direction c' = reverse_home_direction c /\
  reverse_max_direction c' = reverse_max_direction c /\
  pos_abs_min (pos c') = pos_abs_min (pos c) /\
  pos_abs_max (pos c') = pos_abs_max (pos c).

(** What a message on controller [ccNum] may change in a servo: [home] only
    when it is the servo's home controller, [max] only when it is its max
    controller and not its home controller, nothing otherwise. *)
Definition calibrated_by (ccNum : Z) (c c' : Servo) : Prop :=
  same_wiring c c' /\
  (ccNum = cc_home (cc c) -> pos_max (pos c') = pos_max (pos c)) /\
  (ccNum <> cc_home (cc c) -> pos_home (pos c') = pos_home (pos c)) /\
  (ccNum <> cc_home (cc c) -> ccNum <> cc_max (cc c) -> c' = c).

(** The value written by an [analog_write], if the command is one. *)
Definition written (cmd : BoardCmd) : option (Z * Z) :=
  match cmd with
  | analog_write pin v => Some (pin, v)
  | _ => None
  end.




(** [int] rejects the three characters [x], [.], and the digit [d]. *)
Definition dot_rejected (x : ascii) (d : Z) : bool :=
  match int_of_str (String x ("." ++ str d)) with
  | Raise ValueError => true
  | _ => false
  end.

(** [int] rejects a dot followed by the two digits of [d]. *)
Definition dot2_rejected (d : Z) : bool :=
  (String.length (str d) =? 2)%nat &&
  match int_of_str ("." ++ str d) with
  | Raise ValueError => true
  | _ => false
  end.

(** Does the command line ask for the LAN address (lines 239)? *)
Definition lan_requested (argv : list string) : bool :=
  match argv with
  | _ :: arg :: _ => String.eqb arg "LAN"
  | _ => false
  end.

(** * Properties *)

(** ** Arithmetic of [int] and [map_value] *)



Lemma Qsub_eq0 (a b : Q) : a - b == 0 <-> a == b.
Proof.
  split; intro H.
  - setoid_replace a with ((a - b) + b)%Q by ring. rewrite H; ring.
  - rewrite H; ring.
Qed.

Lemma map_value_ok (x lower upper min max : Q) :
  ~ upper == lower ->
  map_value x lower upper min max = Ok (affine x lower upper min max).
Proof.
  intro H; unfold map_value.
  destruct (Qeq_bool (upper - lower) 0) eqn:E; [|reflexivity].
  apply Qeq_bool_iff in E; apply (proj1 (Qsub_eq0 _ _)) in E; contradiction.
Qed.

Lemma map_value_raise (x lower upper min max : Q) :
  upper == lower ->
  map_value x lower upper min max = Raise ZeroDivisionError.
Proof.
  intro H; unfold map_value.
  destruct (Qeq_bool (upper - lower) 0) eqn:E; [reflexivity|].
  apply Qeq_bool_neq in E; apply (proj2 (Qsub_eq0 _ _)) in H; contradiction.
Qed.

Lemma inject_Z_neq (a b : Z) : a <> b -> ~ inject_Z a == inject_Z b.
Proof. intros H E; apply H, inject_Z_injective, E. Qed.






(** ** Note handler *)

Lemma note_servo_skip (w : World) (nt velocity : Z) (c : Servo) (b : Board) :
  note c <> nt -> note_servo w nt velocity c b = (Ok tt, b).
Proof.
  intro H; unfold note_servo.
  destruct (Z.eqb_spec nt (note c)); [congruence|reflexivity].
Qed.

Lemma note_servo_ok (w : World) (nt velocity : Z) (c : Servo) (b : Board) :
  midi_min w <> midi_max w -> abs_range_ok c -> note c = nt ->
  note_servo w nt velocity c b = (Ok tt, b ++ [note_write w velocity c]).
Proof.
  intros Hm Ha Hn; unfold note_servo, note_write, note_target, reverse_servo.
  rewrite <- Hn, Z.eqb_refl.
  unfold Py.bind at 1, Py.lift at 1.
  rewrite map_value_ok by (apply inject_Z_neq; congruence).
  unfold abs_range_ok in Ha.
  destruct (reverse_servo_direction c); unfold Py.bind, Py.lift, Py.ret, Py.modify.
  - rewrite map_value_ok by (apply inject_Z_neq; intro E; apply Ha; congruence).
    reflexivity.
  - reflexivity.
Qed.

Lemma note_loop_skip (w : World) (nt velocity : Z) (cs : list Servo) (b : Board) :
  (forall c, In c cs -> note c <> nt) ->
  note_loop w nt velocity cs b = (Ok tt, b).
Proof.
  induction cs as [|c rest IH]; intro H; simpl; [reflexivity|].
  unfold Py.bind; rewrite note_servo_skip by (apply H; left; reflexivity).
  apply IH; intros x Hx; apply H; right; exact Hx.
Qed.

Lemma note_loop_ok (w : World) (nt velocity : Z) (cs : list Servo) :
  midi_min w <> midi_max w ->
  (forall c, In c cs -> note c = nt -> abs_range_ok c) ->
  forall b,
    note_loop w nt velocity cs b =
    (Ok tt, b ++ map (note_write w velocity) (filter (fun c => nt =? note c) cs)).
Proof.
  intros Hm; induction cs as [|c rest IH]; intros H b; simpl.
  - rewrite app_nil_r; reflexivity.
  - unfold Py.bind.
    assert (Hr : forall x, In x rest -> note x = nt -> abs_range_ok x)
      by (intros x Hx; apply H; right; exact Hx).
    destruct (Z.eqb_spec nt (note c)) as [E|E].
    + rewrite (note_servo_ok w nt velocity c b Hm
                 (H c (or_introl eq_refl) (eq_sym E)) (eq_sym E)).
      rewrite IH by exact Hr. simpl; rewrite <- app_assoc; reflexivity.
    + rewrite note_servo_skip by congruence. apply IH, Hr.
Qed.


Lemma note_handler_unfold (chan nt velocity : Z) (w : World) :
  note_handler [chan; nt; velocity] w =
  match board w with
  | None => (Ok tt, w)
  | Some b =>
      let (r, b') := note_loop w nt velocity (servo (config w)) b in
      (r, with_board b' w)
  end.
Proof.
  unfold note_handler, Py.bind, Py.lift, Py.get, Py.ret; simpl.
  destruct (board w); reflexivity.
Qed.

Lemma with_board_same (w : World) (b : Board) : board w = Some b -> with_board b w = w.
Proof. destruct w; simpl; intros ->; reflexivity. Qed.







(** ** Control-change handler *)

Lemma cc_servo_ok (w : World) (ccNum : Z) (c : Servo) (v : Q) (b : Board) :
  midi_min w <> midi_max w ->
  (cc_matches ccNum c = true -> abs_range_ok c) ->
  cc_servo w ccNum (mkFrame c v b) =
  (Ok tt, mkFrame (cc_update w ccNum v c) (cc_next w ccNum v c)
                  (b ++ cc_writes w ccNum v c)).
Proof.
  intros Hm Ha.
  assert (Hq : ~ inject_Z (midi_max w) == inject_Z (midi_min w))
    by (apply inject_Z_neq; congruence).
  assert (Hr : cc_matches ccNum c = true -> reverse_servo_direction c = true ->
               ~ inject_Z (pos_abs_max (pos c)) == inject_Z (pos_abs_min (pos c))).
  { intros H1 H2; apply inject_Z_neq; intro E; apply (Ha H1 H2); congruence. }
  clear Ha.
  unfold cc_servo, cc_update, cc_writes, cc_out, cc_pos, cc_next, cc_reverses,
    cc_matches in *.
  unfold Py.bind at 1, Py.get at 1; cbn [cur].
  destruct (ccNum =? cc_home (cc c)); [|destruct (ccNum =? cc_max (cc c))].
  - specialize (Hr eq_refl).
    destruct (reverse_home_direction c); cbn [Py.when orb];
      unfold reverse_servo, Py.bind, Py.get, Py.lift, Py.ret, set_ccVal, update_cur,
        send, Py.modify; cbn [ccVal cur brd];
      rewrite ?map_value_ok by exact Hq;
      (destruct (reverse_servo_direction c); cbn [ccVal cur brd];
       [rewrite map_value_ok by (apply Hr; reflexivity)|]; reflexivity).
  - specialize (Hr eq_refl).
    destruct (reverse_max_direction c); cbn [Py.when orb];
      unfold reverse_servo, Py.bind, Py.get, Py.lift, Py.ret, set_ccVal, update_cur,
        send, Py.modify; cbn [ccVal cur brd];
      rewrite ?map_value_ok by exact Hq;
      (destruct (reverse_servo_direction c); cbn [ccVal cur brd];
       [rewrite map_value_ok by (apply Hr; reflexivity)|]; reflexivity).
  - cbn [orb]. unfold Py.ret. rewrite app_nil_r. reflexivity.
Qed.

Lemma cc_loop_ok (w : World) (ccNum : Z) (cs : list Servo) :
  midi_min w <> midi_max w ->
  (forall c, In c cs -> cc_matches ccNum c = true -> abs_range_ok c) ->
  forall v b,
    cc_loop w ccNum cs v b =
    (Ok tt, mkLoop (cc_updates w ccNum cs v) (cc_seen w ccNum cs v)
                   (b ++ cc_log w ccNum cs v)).
Proof.
  intro Hm; induction cs as [|c rest IH]; intros Ha v b; simpl.
  - rewrite app_nil_r; reflexivity.
  - rewrite cc_servo_ok by (auto; apply Ha; left; reflexivity).
    rewrite IH by (intros x Hx; apply Ha; right; exact Hx).
    cbn [cur ccVal brd servos l_ccVal l_brd]. rewrite <- app_assoc. reflexivity.
Qed.

Lemma cc_handler_unfold (chan ccNum ccVal0 : Z) (extra : list Z) (w : World) :
  cc_handler (chan :: ccNum :: ccVal0 :: extra) w =
  match board w with
  | None => (Ok tt, w)
  | Some b =>
      match cc_loop w ccNum (servo (config w)) (inject_Z ccVal0) b with
      | (Ok _, l) =>
          let (r, b') := cc_stepper w ccNum (l_ccVal l) (l_brd l) in
          (r, with_state (servos l) b' w)
      | (Raise e, l) => (Raise e, with_state (servos l) (l_brd l) w)
      end
  end.
Proof.
  unfold cc_handler, Py.bind, Py.lift, Py.get, Py.ret; simpl.
  destruct (board w); reflexivity.
Qed.

Lemma cc_stepper_ok (w : World) (ccNum : Z) (v : Q) (b : Board) :
  midi_min w <> midi_max w ->
  cc_stepper w ccNum v b = (Ok tt, b ++ stepper_log w ccNum v).
Proof.
  intro Hm; unfold cc_stepper, stepper_log.
  destruct (ccNum =? cc_speed (stepper (config w))).
  - unfold Py.bind, Py.lift, Py.modify.
    rewrite map_value_ok by (apply inject_Z_neq; congruence).
    rewrite <- app_assoc; reflexivity.
  - unfold Py.ret; rewrite app_nil_r; reflexivity.
Qed.

(** With non-degenerate ranges the handler returns normally, and its effect
    is the one the exception-free reading describes. *)
Lemma cc_handler_ok (w : World) (b : Board) (chan ccNum ccVal0 : Z) :
  board w = Some b ->
  midi_min w <> midi_max w ->
  (forall c, In c (servo (config w)) -> cc_matches ccNum c = true -> abs_range_ok c) ->
  cc_handler [chan; ccNum; ccVal0] w =
  (Ok tt,
   with_state (cc_updates w ccNum (servo (config w)) (inject_Z ccVal0))
              (b ++ cc_log w ccNum (servo (config w)) (inject_Z ccVal0)
                 ++ stepper_log w ccNum (cc_seen w ccNum (servo (config w)) (inject_Z ccVal0)))
              w).
Proof.
  intros Hb Hm Ha. rewrite cc_handler_unfold, Hb, cc_loop_ok by assumption.
  cbn [l_ccVal l_brd servos]. rewrite cc_stepper_ok by exact Hm.
  rewrite <- app_assoc; reflexivity.
Qed.

Lemma cc_seen_app (w : World) (ccNum : Z) (pre post : list Servo) (v : Q) :
  cc_seen w ccNum (pre ++ post) v = cc_seen w ccNum post (cc_seen w ccNum pre v).
Proof. revert v; induction pre as [|c pre IH]; intro v; simpl; [reflexivity|apply IH]. Qed.

Lemma cc_updates_app (w : World) (ccNum : Z) (pre post : list Servo) (v : Q) :
  cc_updates w ccNum (pre ++ post) v =
  cc_updates w ccNum pre v ++ cc_updates w ccNum post (cc_seen w ccNum pre v).
Proof.
  revert v; induction pre as [|c pre IH]; intro v; simpl; [reflexivity|].
  rewrite IH; reflexivity.
Qed.


Lemma cc_updates_length (w : World) (ccNum : Z) (cs : list Servo) (v : Q) :
  List.length (cc_updates w ccNum cs v) = List.length cs.
Proof. revert v; induction cs as [|c cs IH]; intro v; simpl; [reflexivity|]. rewrite IH; reflexivity. Qed.

(** *** Running the same message again *)

(** One iteration, run again on the dict it has just updated and with the
    same incoming [ccVal], ends the same way and leaves the dict as it is. *)
Lemma cc_servo_again (w : World) (ccNum : Z) (c : Servo) (v : Q) (b b' : Board) :
  exists b'',
    cc_servo w ccNum (mkFrame (cur (snd (cc_servo w ccNum (mkFrame c v b)))) v b') =
    (fst (cc_servo w ccNum (mkFrame c v b)),
     mkFrame (cur (snd (cc_servo w ccNum (mkFrame c v b))))
             (ccVal (snd (cc_servo w ccNum (mkFrame c v b)))) b'').
Proof.
  unfold cc_servo, reverse_servo, Py.when, Py.bind, Py.get, Py.lift, Py.ret,
    set_ccVal, update_cur, send, Py.modify.
  cbn [cur ccVal brd fst snd].
  repeat case_head; eexists; reflexivity.
Qed.

Lemma cc_loop_again (w : World) (ccNum : Z) (cs : list Servo) :
  forall (v : Q) (b b' : Board),
  exists b'',
    cc_loop w ccNum (servos (snd (cc_loop w ccNum cs v b))) v b' =
    (fst (cc_loop w ccNum cs v b),
     mkLoop (servos (snd (cc_loop w ccNum cs v b)))
            (l_ccVal (snd (cc_loop w ccNum cs v b))) b'').
Proof.
  induction cs as [|c rest IH]; intros v b b'; simpl.
  - eexists; reflexivity.
  - destruct (cc_servo_again w ccNum c v b b') as [b1 H1].
    destruct (cc_servo w ccNum (mkFrame c v b)) as [[[]|e] f] eqn:Hs;
      cbn [fst snd] in H1.
    + destruct (IH (ccVal f) (brd f) b1) as [b2 H2].
      destruct (cc_loop w ccNum rest (ccVal f) (brd f)) as [r l] eqn:Hl.
      cbn [fst snd servos l_ccVal] in *. simpl.
      rewrite H1; cbn [cur ccVal brd]. rewrite H2.
      eexists; reflexivity.
    + cbn [fst snd servos l_ccVal]. simpl. rewrite H1.
      eexists; reflexivity.
Qed.

(** The handlers read the globals [midi_min] and [midi_max] only. *)
Lemma cc_servo_ext (w w' : World) (ccNum : Z) (f : Frame) :
  midi_min w = midi_min w' -> midi_max w = midi_max w' ->
  cc_servo w ccNum f = cc_servo w' ccNum f.
Proof. intros H1 H2; unfold cc_servo; rewrite H1, H2; reflexivity. Qed.

Lemma cc_loop_ext (w w' : World) (ccNum : Z) (cs : list Servo) :
  midi_min w = midi_min w' -> midi_max w = midi_max w' ->
  forall v b, cc_loop w ccNum cs v b = cc_loop w' ccNum cs v b.
Proof.
  intros H1 H2; induction cs as [|c rest IH]; intros v b; simpl; [reflexivity|].
  rewrite (cc_servo_ext w w' ccNum _ H1 H2).
  destruct (cc_servo w' ccNum (mkFrame c v b)) as [[[]|e] f]; [|reflexivity].
  rewrite IH; reflexivity.
Qed.

Lemma cc_stepper_ext (w w' : World) (ccNum : Z) (v : Q) (b b' : Board) :
  midi_min w = midi_min w' -> midi_max w = midi_max w' ->
  stepper (config w) = stepper (config w') ->
  fst (cc_stepper w ccNum v b) = fst (cc_stepper w' ccNum v b').
Proof.
  intros H1 H2 H3; unfold cc_stepper; rewrite H1, H2, H3.
  destruct (ccNum =? cc_speed (stepper (config w'))); [|reflexivity].
  unfold Py.bind, Py.lift, Py.modify.
  destruct (map_value _ _ _ _ _); reflexivity.
Qed.

(** C9.  Handling the same control-change message a second time leaves the
    configuration, hence every [home] and [max], as the first handling left
    it, and ends the same way.  The [max] branch reads [home] of the same
    servo, which the message itself does not change. *)
Theorem cc_handler_idempotent (data : list Z) (w : World) :
  config (snd (cc_handler data (snd (cc_handler data w)))) =
  config (snd (cc_handler data w)) /\
  fst (cc_handler data (snd (cc_handler data w))) = fst (cc_handler data w).
Proof.
  destruct data as [|chan [|ccNum [|ccVal0 extra]]]; try (split; reflexivity).
  rewrite (cc_handler_unfold chan ccNum ccVal0 extra w).
  destruct (board w) as [b|] eqn:Hb.
  2:{ cbn [fst snd]; rewrite cc_handler_unfold, Hb; split; reflexivity. }
  pose proof (cc_loop_again w ccNum (servo (config w)) (inject_Z ccVal0) b) as Hagain.
  destruct (cc_loop w ccNum (servo (config w)) (inject_Z ccVal0) b) as [[[]|e] l] eqn:Hl;
    cbn [fst snd] in Hagain.
  - destruct (cc_stepper w ccNum (l_ccVal l) (l_brd l)) as [r b1] eqn:Hst.
    cbn [fst snd]. rewrite cc_handler_unfold. cbn [board with_state config servo set_servo].
    destruct (Hagain b1) as [b2 H2].
    rewrite (cc_loop_ext (with_state (servos l) b1 w) w) by reflexivity.
    rewrite H2. cbn [l_ccVal l_brd servos].
    pose proof (cc_stepper_ext (with_state (servos l) b1 w) w ccNum (l_ccVal l) b2 (l_brd l)
                  eq_refl eq_refl eq_refl) as Hf.
    rewrite Hst in Hf; cbn [fst] in Hf.
    destruct (cc_stepper (with_state (servos l) b1 w) ccNum (l_ccVal l) b2) as [r' b3].
    cbn [fst snd] in *. split; [reflexivity|exact Hf].
  - cbn [fst snd]. rewrite cc_handler_unfold. cbn [board with_state config servo set_servo].
    destruct (Hagain (l_brd l)) as [b2 H2].
    rewrite (cc_loop_ext (with_state (servos l) (l_brd l) w) w) by reflexivity.
    rewrite H2. split; reflexivity.
Qed.

(** *** What a servo in the middle of the list sees *)

Lemma cc_seen_no_reverse (w : World) (ccNum : Z) (cs : list Servo) (v : Q) :
  (forall x, In x cs -> cc_reverses ccNum x = false) ->
  cc_seen w ccNum cs v = v.
Proof.
  revert v; induction cs as [|c rest IH]; intros v H; simpl; [reflexivity|].
  unfold cc_next; rewrite (H c (or_introl eq_refl)).
  apply IH; intros x Hx; apply H; right; exact Hx.
Qed.

Lemma cc_updates_middle (w : World) (ccNum : Z) (pre post : list Servo) (c : Servo) (v : Q) :
  cc_updates w ccNum (pre ++ c :: post) v =
  cc_updates w ccNum pre v
    ++ cc_update w ccNum (cc_seen w ccNum pre v) c
    :: cc_updates w ccNum post (cc_seen w ccNum (pre ++ [c]) v).
Proof. rewrite cc_updates_app, cc_seen_app; reflexivity. Qed.


Lemma nth_error_middle {A} (pre post : list A) (x : A) (n : nat) :
  n = List.length pre -> nth_error (pre ++ x :: post) n = Some x.
Proof.
  intros ->. rewrite nth_error_app2 by apply Nat.le_refl.
  rewrite Nat.sub_diag; reflexivity.
Qed.






(** C10.  The home/max reversal assigns to the handler's own [ccVal].
    Each servo is therefore updated from [ccVal] as the servos before it
    left it; a servo whose branch reverses replaces it by
    [map_value(ccVal, midi_min, midi_max, midi_max, midi_min)] for everything
    that follows; the stepper branch uses the value left by the whole loop;
    and when no servo reverses, all of them use the message value. *)
Theorem cc_handler_ccVal_overwritten
  (w : World) (b : Board) (chan ccNum ccValue : Z) :
  board w = Some b ->
  midi_min w <> midi_max w ->
  (forall x, In x (servo (config w)) -> cc_matches ccNum x = true -> abs_range_ok x) ->
  let lo := inject_Z (midi_min w) in
  let hi := inject_Z (midi_max w) in
  let v0 := inject_Z ccValue in
  let w' := snd (cc_handler [chan; ccNum; ccValue] w) in
  (forall pre c post,
     servo (config w) = pre ++ c :: post ->
     nth_error (servo (config w')) (List.length pre) =
       Some (cc_update w ccNum (cc_seen w ccNum pre v0) c) /\
     (if cc_reverses ccNum c
      then map_value (cc_seen w ccNum pre v0) lo hi hi lo
      else Ok (cc_seen w ccNum pre v0)) = Ok (cc_seen w ccNum (pre ++ [c]) v0)) /\
  (ccNum = cc_speed (stepper (config w)) ->
   exists s,
     map_value (cc_seen w ccNum (servo (config w)) v0) lo hi
               (inject_Z (min_speed (stepper (config w))))
               (inject_Z (max_speed (stepper (config w)))) = Ok s /\
     board w' =
       Some (b ++ cc_log w ccNum (servo (config w)) v0
               ++ [timerthree_set_frequency (int s);
                   timerthree_pwm (g_step_pin w) (duty_cycle w)])) /\
  ((forall x, In x (servo (config w)) -> cc_reverses ccNum x = false) ->
   cc_seen w ccNum (servo (config w)) v0 = v0 /\
   forall pre post, servo (config w) = pre ++ post -> cc_seen w ccNum pre v0 = v0).
Proof.
  intros Hb Hm Ha lo hi v0 w'.
  assert (Hq : ~ hi == lo) by (apply inject_Z_neq; congruence).
  assert (Hw : w' = with_state (cc_updates w ccNum (servo (config w)) v0)
                 (b ++ cc_log w ccNum (servo (config w)) v0
                    ++ stepper_log w ccNum (cc_seen w ccNum (servo (config w)) v0)) w).
  { unfold w'; rewrite (cc_handler_ok w b chan ccNum ccValue Hb Hm Ha); reflexivity. }
  split; [|split].
  - intros pre c post Hs; split.
    + rewrite Hw; cbn [config with_state set_servo servo].
      rewrite Hs, cc_updates_middle.
      apply nth_error_middle; symmetry; apply cc_updates_length.
    + rewrite cc_seen_app; simpl; unfold cc_next.
      destruct (cc_reverses ccNum c); [apply map_value_ok, Hq|reflexivity].
  - intro Hc. eexists; split; [apply map_value_ok, Hq|].
    rewrite Hw; cbn [board with_state]. unfold stepper_log.
    rewrite Hc, Z.eqb_refl. reflexivity.
  - intro Hn; split; [apply cc_seen_no_reverse, Hn|].
    intros pre post Hs. apply cc_seen_no_reverse.
    intros x Hx; apply Hn; rewrite Hs; apply in_or_app; left; exact Hx.
Qed.

Lemma cc_handler_ccVal_overwritten_witness :
  let w := shared_cc_world true in
  let w' := snd (cc_handler [0; 20; 0] w) in
  nth_error (servo (config w')) (List.length [demo_servo 9 false true false]) =
    Some (cc_update w 20 (cc_seen w 20 [demo_servo 9 false true false] (inject_Z 0))
                    (demo_servo 10 false false false)) /\
  (if cc_reverses 20 (demo_servo 10 false false false)
   then map_value (cc_seen w 20 [demo_servo 9 false true false] (inject_Z 0))
                  (inject_Z 0) (inject_Z 127) (inject_Z 127) (inject_Z 0)
   else Ok (cc_seen w 20 [demo_servo 9 false true false] (inject_Z 0))) =
  Ok (cc_seen w 20 ([demo_servo 9 false true false] ++ [demo_servo 10 false false false])
              (inject_Z 0)).
Proof.
  intros w w'.
  apply (proj1 (cc_handler_ccVal_overwritten w [] 0 20 0 eq_refl
                  ltac:(discriminate)
                  ltac:(intros x [<-|[<-|[]]] _ _; discriminate))
           [demo_servo 9 false true false] (demo_servo 10 false false false) []).
  reflexivity.
Defined.

(** The overwrite at work: value 0 on controller 20 is reversed to 127 by
    the first servo, so the second servo and the stepper act on 127; without
    the reversal all three act on 0. *)
Example cc_handler_overwrite_example :
  snd (cc_handler [0; 20; 0] (shared_cc_world true)) =
    with_state [set_home 200 (demo_servo 9 false true false);
                set_home 200 (demo_servo 10 false false false)]
               [analog_write 9 200; analog_write 10 200;
                timerthree_set_frequency 1000; timerthree_pwm 3 511]
               (shared_cc_world true) /\
  snd (cc_handler [0; 20; 0] (shared_cc_world false)) =
    with_state [set_home 0 (demo_servo 9 false false false);
                set_home 0 (demo_servo 10 false false false)]
               [analog_write 9 0; analog_write 10 0;
                timerthree_set_frequency 0; timerthree_pwm 3 511]
               (shared_cc_world false).
Proof. split; vm_compute; reflexivity. Qed.

(** ** Address selector *)

Lemma substring_skip (p s : string) (n : nat) :
  substring (String.length p) n (p ++ s) = substring 0 n s.
Proof. induction p as [|a p IH]; simpl; [reflexivity|exact IH]. Qed.

Lemma length_append (p s : string) :
  String.length (p ++ s) = (String.length p + String.length s)%nat.
Proof. induction p as [|a p IH]; simpl; [reflexivity|rewrite IH; reflexivity]. Qed.

Lemma last3_app (p s : string) :
  String.length s = 3%nat -> last3 (p ++ s) = s.
Proof.
  intro H; unfold last3.
  rewrite length_append, H, Nat.add_sub, substring_skip.
  destruct s as [|a [|b [|c [|d s]]]]; try discriminate; reflexivity.
Qed.

Lemma append_assoc (s1 s2 s3 : string) :
  ((s1 ++ s2) ++ s3 = s1 ++ (s2 ++ s3))%string.
Proof. induction s1 as [|a s1 IH]; simpl; [reflexivity|rewrite IH; reflexivity]. Qed.

Lemma dotted_split (a b c d : Z) :
  dotted a b c d = ((str a ++ "." ++ str b ++ "." ++ str c ++ ".") ++ str d)%string.
Proof. unfold dotted; rewrite !append_assoc; reflexivity. Qed.

(** An octet of three digits prints on three characters and reads back. *)
Lemma three_digit_octet (d : Z) :
  100 <= d <= 255 ->
  String.length (str d) = 3%nat /\ int_of_str (str d) = Ok d.
Proof.
  intro H.
  assert (Hall : forallb (fun n => octet_ok (Z.of_nat n)) (seq 100 156) = true)
    by (vm_compute; reflexivity).
  rewrite forallb_forall in Hall.
  specialize (Hall (Z.to_nat d)).
  rewrite Z2Nat.id in Hall by lia.
  assert (Hin : In (Z.to_nat d) (seq 100 156)) by (apply in_seq; lia).
  apply Hall in Hin. unfold octet_ok in Hin.
  apply andb_true_iff in Hin; destruct Hin as [H1 H2].
  split; [apply Nat.eqb_eq, H1|].
  destruct (int_of_str (str d)) as [n|e]; [|discriminate].
  apply Z.eqb_eq in H2; congruence.
Qed.

Lemma mod2_even (d : Z) : (d mod 2 =? 0) = Z.even d.
Proof.
  destruct (Z.even d) eqn:E.
  - apply Z.even_spec in E; destruct E as [k ->].
    apply Z.eqb_eq. rewrite Z.mul_comm; apply Z.mod_mul; discriminate.
  - apply Z.eqb_neq. assert (Ho : Z.odd d = true) by (rewrite <- Z.negb_even, E; reflexivity).
    apply Z.odd_spec in Ho; destruct Ho as [k ->].
    rewrite Z.add_comm, Z.mul_comm, Z.mod_add by discriminate. discriminate.
Qed.

Lemma getIPAddress2_three_digits (a b c d : Z) :
  100 <= d <= 255 ->
  getIPAddress2 (dotted a b c d) =
  Ok (dotted 192 168 1 (if Z.even d then d + 1 else d - 1)).
Proof.
  intro H; destruct (three_digit_octet d H) as [Hl Hi].
  unfold getIPAddress2. rewrite dotted_split, last3_app, Hi by exact Hl.
  cbn [bind_result]. rewrite mod2_even. reflexivity.
Qed.

Lemma classify_three_digits (a b c d : Z) :
  100 <= d <= 255 ->
  classify (dotted a b c d) =
  Ok (if Z.even d
      then (dotted a b c d, dotted 192 168 1 (d + 1))
      else (dotted 192 168 1 (d - 1), dotted a b c d)).
Proof.
  intro H; destruct (three_digit_octet d H) as [Hl Hi].
  unfold classify. rewrite getIPAddress2_three_digits by exact H.
  cbn [bind_result]. rewrite dotted_split, last3_app, Hi by exact Hl.
  cbn [bind_result]. rewrite mod2_even.
  destruct (Z.even d); reflexivity.
Qed.

(** C5 (as stated, refuted).  The function reads the last three characters,
    not the last octet: for an octet below 100 they include a dot and
    [int] raises [ValueError], where the claim expects [192.168.1.51] and
    [192.168.1.4]. *)
Lemma getIPAddress2_short_octet :
  getIPAddress2 "192.168.1.50" = Raise ValueError /\
  getIPAddress2 "192.168.1.5" = Raise ValueError /\
  last3 "192.168.1.50" = ".50"%string /\
  getIPAddress2 "192.168.1.50" <> Ok "192.168.1.51"%string.
Proof.
  assert (H : getIPAddress2 "192.168.1.50" = Raise ValueError) by (vm_compute; reflexivity).
  repeat split; try (vm_compute; reflexivity).
  rewrite H; discriminate.
Qed.

(** C5 (amended).  For a discovered address whose last octet has three
    digits (100..255): the paired address is [192.168.1.] followed by the
    octet plus one if it is even, minus one if it is odd; the address with
    the even octet is the WLAN one and the other the LAN one; and within
    [192.168.1.x] both members of a pair are classified alike. *)
Theorem getIPAddress2_pairs (a b c d : Z) :
  100 <= d <= 255 ->
  let paired := if Z.even d then d + 1 else d - 1 in
  let wlan := if Z.even d then d else d - 1 in
  getIPAddress2 (dotted a b c d) = Ok (dotted 192 168 1 paired) /\
  classify (dotted a b c d) =
    Ok (if Z.even d
        then (dotted a b c d, dotted 192 168 1 paired)
        else (dotted 192 168 1 paired, dotted a b c d)) /\
  classify (dotted 192 168 1 d) = Ok (dotted 192 168 1 wlan, dotted 192 168 1 (wlan + 1)) /\
  classify (dotted 192 168 1 paired) = classify (dotted 192 168 1 d) /\
  Z.even wlan = true.
Proof.
  intros H paired wlan.
  assert (Hp : 100 <= paired <= 255).
  { unfold paired; destruct (Z.even d) eqn:E.
    - assert (d <> 255) by (intros ->; discriminate). lia.
    - assert (d <> 100) by (intros ->; discriminate). lia. }
  assert (Hpe : Z.even paired = negb (Z.even d)).
  { unfold paired; destruct (Z.even d) eqn:E.
    - rewrite Z.even_add, E; reflexivity.
    - rewrite Z.even_sub, E; reflexivity. }
  split; [apply getIPAddress2_three_digits, H|].
  split.
  { rewrite classify_three_digits by exact H. unfold paired.
    destruct (Z.even d); reflexivity. }
  split.
  { rewrite classify_three_digits by exact H. unfold wlan.
    destruct (Z.even d); [reflexivity|].
    replace (d - 1 + 1) with d by lia; reflexivity. }
  split.
  { rewrite !classify_three_digits by assumption. rewrite Hpe.
    unfold paired. destruct (Z.even d); cbn [negb].
    - replace (d + 1 - 1) with d by lia; reflexivity.
    - replace (d - 1 + 1) with d by lia; reflexivity. }
  unfold wlan; destruct (Z.even d) eqn:E; [exact E|].
  rewrite Z.even_sub, E; reflexivity.
Qed.

Lemma getIPAddress2_pairs_witness :
  100 <= 101 <= 255 /\
  getIPAddress2 "192.168.1.101" = Ok "192.168.1.100"%string /\
  classify "192.168.1.101" = Ok ("192.168.1.100"%string, "192.168.1.101"%string) /\
  classify "192.168.1.100" = classify "192.168.1.101".
Proof.
  split; [lia|].
  assert (H : 100 <= 101 <= 255) by lia.
  pose proof (getIPAddress2_pairs 192 168 1 101 H) as (H1 & _ & H3 & H4 & _).
  split; [exact H1|]. split; [exact H3|exact H4].
Defined.

(** The two addresses of the spec's example, whichever is discovered. *)
Example classify_100_101 :
  getIPAddress2 "192.168.1.100" = Ok "192.168.1.101"%string /\
  getIPAddress2 "192.168.1.101" = Ok "192.168.1.100"%string /\
  classify "192.168.1.100" = Ok ("192.168.1.100"%string, "192.168.1.101"%string) /\
  classify "192.168.1.101" = Ok ("192.168.1.100"%string, "192.168.1.101"%string) /\
  bind_address ["PyMataOSC_v4.py"%string] "192.168.1.101" = Ok "192.168.1.100"%string /\
  bind_address ["PyMataOSC_v4.py"%string; "LAN"%string] "192.168.1.100"
    = Ok "192.168.1.101"%string.
Proof. repeat split; vm_compute; reflexivity. Qed.

(** * Further properties of the code

    As above, arithmetic is exact.  The range, end-point and exception
    properties below do not depend on that; the composition law X1 is a
    fact of exact arithmetic, which binary64 follows up to rounding. *)

(** ** [int] and [map_value] *)


Lemma affine_Qeq (x y lo hi mn mx : Q) :
  x == y -> affine x lo hi mn mx == affine y lo hi mn mx.
Proof. intro H; unfold affine; rewrite H; reflexivity. Qed.







(** ** Note handler *)







Lemma note_loop_app (w : World) (nt velocity : Z) (pre post : list Servo) (b : Board) :
  note_loop w nt velocity (pre ++ post) b =
  match note_loop w nt velocity pre b with
  | (Ok _, b1) => note_loop w nt velocity post b1
  | (Raise e, b1) => (Raise e, b1)
  end.
Proof.
  revert b; induction pre as [|c pre IH]; intro b; simpl; [reflexivity|].
  unfold Py.bind. destruct (note_servo w nt velocity c b) as [[[]|e] b1]; [apply IH|reflexivity].
Qed.

Lemma note_servo_midi_degenerate (w : World) (nt velocity : Z) (c : Servo) (b : Board) :
  midi_min w = midi_max w -> note c = nt ->
  note_servo w nt velocity c b = (Raise ZeroDivisionError, b).
Proof.
  intros Hm Hn; unfold note_servo. rewrite <- Hn, Z.eqb_refl.
  unfold Py.bind, Py.lift. rewrite map_value_raise by (rewrite Hm; reflexivity).
  reflexivity.
Qed.

Lemma note_servo_abs_degenerate (w : World) (nt velocity : Z) (c : Servo) (b : Board) :
  midi_min w <> midi_max w -> note c = nt ->
  reverse_servo_direction c = true -> pos_abs_min (pos c) = pos_abs_max (pos c) ->
  note_servo w nt velocity c b = (Raise ZeroDivisionError, b).
Proof.
  intros Hm Hn Hr Ha; unfold note_servo, reverse_servo. rewrite <- Hn, Z.eqb_refl, Hr.
  unfold Py.bind, Py.lift. rewrite map_value_ok by (apply inject_Z_neq; congruence).
  rewrite map_value_raise by (rewrite Ha; reflexivity).
  reflexivity.
Qed.

(** X5.  A division by zero stops the note handler at the first matching
    servo that provokes it.  With [midi_min = midi_max] that is the first
    match, so nothing is written at all; with a reversed servo whose
    [abs_min = abs_max], the matching servos before it have been moved and
    neither it nor any servo after it is. *)
Theorem note_handler_zero_division
  (w : World) (b : Board) (chan nt velocity : Z) (pre post : list Servo) (c : Servo) :
  board w = Some b ->
  servo (config w) = pre ++ c :: post ->
  note c = nt ->
  (midi_min w = midi_max w ->
   (forall x, In x pre -> note x <> nt) ->
   note_handler [chan; nt; velocity] w = (Raise ZeroDivisionError, w)) /\
  (midi_min w <> midi_max w ->
   (forall x, In x pre -> note x = nt -> abs_range_ok x) ->
   reverse_servo_direction c = true ->
   pos_abs_min (pos c) = pos_abs_max (pos c) ->
   note_handler [chan; nt; velocity] w =
   (Raise ZeroDivisionError,
    with_board (b ++ map (note_write w velocity) (filter (fun x => nt =? note x) pre)) w)).
Proof.
  intros Hb Hs Hn; rewrite note_handler_unfold, Hb, Hs, note_loop_app; split.
  - intros Hm Hpre. rewrite note_loop_skip by exact Hpre. simpl; unfold Py.bind.
    rewrite note_servo_midi_degenerate by assumption.
    rewrite with_board_same by exact Hb. reflexivity.
  - intros Hm Hpre Hr Ha. rewrite note_loop_ok by assumption. simpl; unfold Py.bind.
    rewrite note_servo_abs_degenerate by assumption. reflexivity.
Qed.

Lemma note_handler_zero_division_witness :
  let flat := mkServo 60 10 (mkServoCC 20 21) true false false (mkPos 50 50 50 50) in
  let w := demo_world [demo_servo 9 false false false; flat; demo_servo 11 false false false] in
  note_handler [0; 60; 127] w =
  (Raise ZeroDivisionError,
   with_board ([] ++ map (note_write w 127)
                        (filter (fun x => 60 =? note x) [demo_servo 9 false false false])) w).
Proof.
  intros flat w.
  apply (proj2 (note_handler_zero_division w [] 0 60 127
                  [demo_servo 9 false false false] [demo_servo 11 false false false] flat
                  eq_refl eq_refl eq_refl)).
  - discriminate.
  - intros x [<-|[]] _ _; discriminate.
  - reflexivity.
  - reflexivity.
Defined.

(** ** Both handlers: the message and the connection *)

(** X6.  A message with fewer than three values makes either handler raise
    [IndexError] before it looks at the board or the configuration. *)
Theorem handlers_short_message (data : list Z) (w : World) :
  (List.length data < 3)%nat ->
  note_handler data w = (Raise IndexError, w) /\
  cc_handler data w = (Raise IndexError, w).
Proof.
  intro H.
  destruct data as [|x0 [|x1 [|x2 rest]]]; simpl in H; try lia; split; reflexivity.
Qed.

Lemma handlers_short_message_witness :
  note_handler [0; 60] (demo_world []) = (Raise IndexError, demo_world []) /\
  cc_handler [0; 60] (demo_world []) = (Raise IndexError, demo_world []).
Proof. apply (handlers_short_message [0; 60] (demo_world [])); simpl; lia. Defined.

Lemma note_handler_extra_values (chan nt velocity : Z) (extra : list Z) (w : World) :
  note_handler (chan :: nt :: velocity :: extra) w = note_handler [chan; nt; velocity] w.
Proof. reflexivity. Qed.

(** X7.  While the board is not connected a message of three or more
    values does nothing and raises nothing in either handler, whatever the
    configuration, degenerate ranges included. *)
Theorem handlers_without_board (x0 x1 x2 : Z) (extra : list Z) (w : World) :
  board w = None ->
  note_handler (x0 :: x1 :: x2 :: extra) w = (Ok tt, w) /\
  cc_handler (x0 :: x1 :: x2 :: extra) w = (Ok tt, w).
Proof.
  intro H. rewrite note_handler_extra_values, note_handler_unfold, cc_handler_unfold, H.
  split; reflexivity.
Qed.

Lemma handlers_without_board_witness :
  let c := mkServo 60 9 (mkServoCC 60 21) true true true (mkPos 10 100 0 200) in
  let w := init_globals (mkConfig 5 5 2346 13 [c] demo_stepper) None in
  note_handler [0; 60; 127] w = (Ok tt, w) /\ cc_handler [0; 60; 127] w = (Ok tt, w).
Proof. intros c w. apply (handlers_without_board 0 60 127 [] w). reflexivity. Defined.

(** ** Control-change handler: what is kept *)

Lemma calibrated_by_refl (ccNum : Z) (c : Servo) : calibrated_by ccNum c c.
Proof. unfold calibrated_by, same_wiring; repeat split; reflexivity. Qed.

(** One iteration, however it ends, only assigns [home] or [max] of its own
    servo and only appends to the board. *)
Lemma cc_servo_calibrates (w : World) (ccNum : Z) (c : Servo) (v : Q) (b : Board) :
  calibrated_by ccNum c (cur (snd (cc_servo w ccNum (mkFrame c v b)))) /\
  exists ws, brd (snd (cc_servo w ccNum (mkFrame c v b))) = b ++ ws.
Proof.
  unfold cc_servo, reverse_servo, Py.when, Py.bind, Py.get, Py.lift, Py.ret,
    set_ccVal, update_cur, send, Py.modify.
  cbn [cur ccVal brd fst snd].
  repeat case_head;
    (split;
     [ unfold calibrated_by, same_wiring; cbn;
       repeat match goal with
              | H : (_ =? _) = true |- _ => apply Z.eqb_eq in H
              | H : (_ =? _) = false |- _ => apply Z.eqb_neq in H
              end;
       repeat split; intros; try reflexivity; try congruence
     | first [ exists []; rewrite app_nil_r; reflexivity | eexists; reflexivity ] ]).
Qed.

Lemma cc_loop_calibrates (w : World) (ccNum : Z) (cs : list Servo) :
  forall (v : Q) (b : Board),
    Forall2 (calibrated_by ccNum) cs (servos (snd (cc_loop w ccNum cs v b))) /\
    exists ws, l_brd (snd (cc_loop w ccNum cs v b)) = b ++ ws.
Proof.
  induction cs as [|c rest IH]; intros v b; simpl.
  - split; [constructor|exists []; rewrite app_nil_r; reflexivity].
  - destruct (cc_servo_calibrates w ccNum c v b) as [Hc [ws Hw]].
    destruct (cc_servo w ccNum (mkFrame c v b)) as [[[]|e] f]; cbn [fst snd] in *.
    + destruct (IH (ccVal f) (brd f)) as [Hr [ws' Hw']].
      destruct (cc_loop w ccNum rest (ccVal f) (brd f)) as [r l]; cbn [fst snd servos l_brd] in *.
      split; [constructor; assumption|].
      exists (ws ++ ws'); rewrite Hw', Hw, app_assoc; reflexivity.
    + cbn [servos l_brd]. split.
      * constructor; [exact Hc|].
        clear; induction rest; constructor; [apply calibrated_by_refl|assumption].
      * exists ws; exact Hw.
Qed.

Lemma calibrated_by_all_refl (ccNum : Z) (cs : list Servo) :
  Forall2 (calibrated_by ccNum) cs cs.
Proof. induction cs; constructor; [apply calibrated_by_refl|assumption]. Qed.

Lemma cc_handler_calibrates (chan ccNum ccValue : Z) (extra : list Z) (w : World) :
  Forall2 (calibrated_by ccNum) (servo (config w))
          (servo (config (snd (cc_handler (chan :: ccNum :: ccValue :: extra) w)))).
Proof.
  rewrite cc_handler_unfold.
  destruct (board w) as [b|]; [|apply calibrated_by_all_refl].
  destruct (cc_loop_calibrates w ccNum (servo (config w)) (inject_Z ccValue) b) as [H _].
  destruct (cc_loop w ccNum (servo (config w)) (inject_Z ccValue) b) as [[[]|e] l];
    cbn [fst snd] in *.
  - destruct (cc_stepper w ccNum (l_ccVal l) (l_brd l)); exact H.
  - exact H.
Qed.

Lemma cc_stepper_appends (w : World) (ccNum : Z) (v : Q) (b : Board) :
  exists ws, snd (cc_stepper w ccNum v b) = b ++ ws.
Proof.
  unfold cc_stepper.
  destruct (ccNum =? cc_speed (stepper (config w))).
  - unfold Py.bind, Py.lift, Py.modify.
    destruct (map_value _ _ _ _ _); cbn [snd].
    + eexists; rewrite <- app_assoc; reflexivity.
    + exists []; rewrite app_nil_r; reflexivity.
  - exists []; unfold Py.ret; rewrite app_nil_r; reflexivity.
Qed.

(** X8.  However a control-change message ends, it leaves every servo's
    note, pin, controller numbers, direction flags and absolute bounds, the
    stepper settings and the globals as they were, keeps the number and
    order of the servos, and only appends to what the board has received. *)
Theorem cc_handler_keeps_wiring (chan ccNum ccValue : Z) (extra : list Z) (w : World) :
  let w' := snd (cc_handler (chan :: ccNum :: ccValue :: extra) w) in
  Forall2 same_wiring (servo (config w)) (servo (config w')) /\
  stepper (config w') = stepper (config w) /\
  (cfg_midi_min (config w'), cfg_midi_max (config w'),
   cfg_port (config w'), cfg_led_pin (config w')) =
  (cfg_midi_min (config w), cfg_midi_max (config w),
   cfg_port (config w), cfg_led_pin (config w)) /\
  (midi_min w', midi_max w', g_step_pin w', duty_cycle w') =
  (midi_min w, midi_max w, g_step_pin w, duty_cycle w) /\
  match board w with
  | Some b => exists ws, board w' = Some (b ++ ws)
  | None => board w' = None
  end.
Proof.
  intro w'. split.
  { pose proof (cc_handler_calibrates chan ccNum ccValue extra w) as H.
    revert H; apply Forall2_impl. intros c c' Hc; apply Hc. }
  unfold w'; rewrite cc_handler_unfold.
  destruct (board w) as [b|] eqn:Hb; [|cbn [snd]; rewrite Hb; repeat split; reflexivity].
  destruct (cc_loop_calibrates w ccNum (servo (config w)) (inject_Z ccValue) b) as [_ [ws Hw]].
  destruct (cc_loop w ccNum (servo (config w)) (inject_Z ccValue) b) as [[[]|e] l];
    cbn [fst snd] in *.
  - destruct (cc_stepper_appends w ccNum (l_ccVal l) (l_brd l)) as [ws' Hw'].
    destruct (cc_stepper w ccNum (l_ccVal l) (l_brd l)) as [r b']; cbn [snd] in *.
    repeat split. exists (ws ++ ws').
    cbn [board with_state]; rewrite Hw', Hw, app_assoc; reflexivity.
  - repeat split. exists ws. cbn [board with_state]; rewrite Hw; reflexivity.
Qed.

(** X9.  A message on controller [ccNum] can change, in each servo, only
    [home] if [ccNum] is its home controller, only [max] if [ccNum] is its
    max controller and not its home controller, and nothing otherwise; so a
    servo whose two controller numbers coincide never has [max]
    recalibrated. *)
Theorem cc_handler_one_field (chan ccNum ccValue : Z) (extra : list Z) (w : World) :
  Forall2 (fun c c' =>
             (ccNum = cc_home (cc c) -> pos_max (pos c') = pos_max (pos c)) /\
             (ccNum <> cc_home (cc c) -> pos_home (pos c') = pos_home (pos c)) /\
             (ccNum <> cc_home (cc c) -> ccNum <> cc_max (cc c) -> c' = c) /\
             (cc_home (cc c) = cc_max (cc c) -> pos_max (pos c') = pos_max (pos c)))
          (servo (config w))
          (servo (config (snd (cc_handler (chan :: ccNum :: ccValue :: extra) w)))).
Proof.
  pose proof (cc_handler_calibrates chan ccNum ccValue extra w) as H.
  revert H; apply Forall2_impl.
  intros c c' (_ & H1 & H2 & H3); repeat split; try assumption.
  intro E. destruct (Z.eq_dec ccNum (cc_home (cc c))) as [Hh|Hh]; [apply H1, Hh|].
  rewrite (H3 Hh); [reflexivity|congruence].
Qed.

Lemma cc_servo_skip (w : World) (ccNum : Z) (f : Frame) :
  cc_matches ccNum (cur f) = false -> cc_servo w ccNum f = (Ok tt, f).
Proof.
  unfold cc_matches, cc_servo; intro H. apply orb_false_iff in H; destruct H as [H1 H2].
  unfold Py.bind at 1, Py.get at 1. rewrite H1, H2. reflexivity.
Qed.

Lemma cc_loop_skip (w : World) (ccNum : Z) (cs : list Servo) (v : Q) (b : Board) :
  (forall c, In c cs -> cc_matches ccNum c = false) ->
  cc_loop w ccNum cs v b = (Ok tt, mkLoop cs v b).
Proof.
  induction cs as [|c rest IH]; intro H; simpl; [reflexivity|].
  rewrite cc_servo_skip by (apply H; left; reflexivity). cbn [ccVal brd cur].
  rewrite IH by (intros x Hx; apply H; right; exact Hx). reflexivity.
Qed.

Lemma with_state_same (w : World) (b : Board) :
  board w = Some b -> with_state (servo (config w)) b w = w.
Proof. destruct w as [bo [a1 a2 a3 a4 l s] m1 m2 sp dc]; simpl; intros ->; reflexivity. Qed.

(** X10.  A controller number that no servo and not the stepper listens to
    is ignored: the world is left exactly as it was and nothing is raised,
    degenerate ranges or not. *)
Theorem cc_handler_no_match (chan ccNum ccValue : Z) (extra : list Z) (w : World) :
  (forall c, In c (servo (config w)) -> cc_matches ccNum c = false) ->
  ccNum <> cc_speed (stepper (config w)) ->
  cc_handler (chan :: ccNum :: ccValue :: extra) w = (Ok tt, w).
Proof.
  intros Hs Hst. rewrite cc_handler_unfold.
  destruct (board w) as [b|] eqn:Hb; [|reflexivity].
  rewrite cc_loop_skip by exact Hs. cbn [l_ccVal l_brd servos].
  unfold cc_stepper. destruct (Z.eqb_spec ccNum (cc_speed (stepper (config w)))); [contradiction|].
  unfold Py.ret. rewrite with_state_same by exact Hb. reflexivity.
Qed.

Lemma cc_handler_no_match_witness :
  let w := init_globals (mkConfig 5 5 2346 13 [demo_servo 9 true true true] demo_stepper)
                        (Some []) in
  cc_handler [0; 22; 127] w = (Ok tt, w).
Proof.
  intro w. apply (cc_handler_no_match 0 22 127 [] w).
  - intros c [<-|[]]; reflexivity.
  - discriminate.
Defined.

(** ** Control-change handler: ranges *)









(** ** Control-change handler: division by zero *)

Lemma cc_servo_midi_degenerate (w : World) (ccNum : Z) (f : Frame) :
  midi_min w = midi_max w -> cc_matches ccNum (cur f) = true ->
  cc_servo w ccNum f = (Raise ZeroDivisionError, f).
Proof.
  intros Hm Hc. unfold cc_matches in Hc. unfold cc_servo.
  unfold Py.bind at 1, Py.get at 1.
  assert (Hr : forall x mn mx,
            map_value x (inject_Z (midi_min w)) (inject_Z (midi_max w)) mn mx
            = Raise ZeroDivisionError)
    by (intros; apply map_value_raise; rewrite Hm; reflexivity).
  destruct f as [c v b]; cbn [cur] in *.
  destruct (ccNum =? cc_home (cc c)); [|destruct (ccNum =? cc_max (cc c)); [|discriminate]].
  - destruct (reverse_home_direction c);
      unfold Py.when, Py.bind, Py.get, Py.lift, Py.ret; cbn [ccVal]; rewrite Hr; reflexivity.
  - destruct (reverse_max_direction c);
      unfold Py.when, Py.bind, Py.get, Py.lift, Py.ret; cbn [ccVal]; rewrite Hr; reflexivity.
Qed.

Lemma cc_loop_midi_degenerate (w : World) (ccNum : Z) (cs : list Servo) (v : Q) (b : Board) :
  midi_min w = midi_max w ->
  cc_loop w ccNum cs v b =
  (if existsb (cc_matches ccNum) cs then Raise ZeroDivisionError else Ok tt,
   mkLoop cs v b).
Proof.
  intro Hm; induction cs as [|c rest IH]; simpl; [reflexivity|].
  destruct (cc_matches ccNum c) eqn:Hc; cbn [orb].
  - rewrite cc_servo_midi_degenerate by assumption. reflexivity.
  - rewrite cc_servo_skip by exact Hc. cbn [ccVal brd cur]. rewrite IH.
    destruct (existsb (cc_matches ccNum) rest); reflexivity.
Qed.

(** X13.  With [midi_min = midi_max] a control-change message changes
    nothing at all, neither configuration nor board: it raises
    [ZeroDivisionError] when some servo or the stepper listens to the
    controller, before anything is assigned or sent, and returns normally
    otherwise. *)
Theorem cc_handler_midi_degenerate (w : World) (b : Board) (chan ccNum ccValue : Z) :
  board w = Some b ->
  midi_min w = midi_max w ->
  cc_handler [chan; ccNum; ccValue] w =
  (if existsb (cc_matches ccNum) (servo (config w))
      || (ccNum =? cc_speed (stepper (config w)))
   then Raise ZeroDivisionError else Ok tt,
   w).
Proof.
  intros Hb Hm. rewrite cc_handler_unfold, Hb, cc_loop_midi_degenerate by exact Hm.
  destruct (existsb (cc_matches ccNum) (servo (config w))); cbn [orb servos l_brd l_ccVal].
  - rewrite with_state_same by exact Hb; reflexivity.
  - unfold cc_stepper. destruct (ccNum =? cc_speed (stepper (config w))).
    + unfold Py.bind, Py.lift.
      rewrite map_value_raise by (rewrite Hm; reflexivity).
      rewrite with_state_same by exact Hb; reflexivity.
    + unfold Py.ret. rewrite with_state_same by exact Hb; reflexivity.
Qed.

Lemma cc_handler_midi_degenerate_witness :
  let w := init_globals (mkConfig 5 5 2346 13 [demo_servo 9 false true false] demo_stepper)
                        (Some []) in
  cc_handler [0; 20; 5] w =
  (if existsb (cc_matches 20) (servo (config w)) || (20 =? cc_speed (stepper (config w)))
   then Raise ZeroDivisionError else Ok tt,
   w).
Proof. intro w. apply (cc_handler_midi_degenerate w [] 0 20 5); reflexivity. Defined.





(** ** Address selector: pairs and short octets *)

(** X15.  Pairing is its own inverse on the [192.168.1.] network: for a
    last octet of three digits, the pair of the pair of [a.b.c.d] is
    [192.168.1.d]. *)
Theorem getIPAddress2_involutive (a b c d : Z) :
  100 <= d <= 255 ->
  exists paired,
    getIPAddress2 (dotted a b c d) = Ok paired /\
    getIPAddress2 paired = Ok (dotted 192 168 1 d).
Proof.
  intro H. eexists; split; [apply getIPAddress2_three_digits, H|].
  assert (Hp : 100 <= (if Z.even d then d + 1 else d - 1) <= 255).
  { destruct (Z.even d) eqn:E.
    - assert (d <> 255) by (intros ->; discriminate). lia.
    - assert (d <> 100) by (intros ->; discriminate). lia. }
  rewrite getIPAddress2_three_digits by exact Hp.
  destruct (Z.even d) eqn:E.
  - rewrite Z.even_add, E; cbn. replace (d + 1 - 1) with d by lia; reflexivity.
  - rewrite Z.even_sub, E; cbn. replace (d - 1 + 1) with d by lia; reflexivity.
Qed.

Lemma getIPAddress2_involutive_witness :
  exists paired,
    getIPAddress2 (dotted 10 0 0 254) = Ok paired /\
    getIPAddress2 paired = Ok (dotted 192 168 1 254).
Proof. apply (getIPAddress2_involutive 10 0 0 254); lia. Defined.

Lemma string_snoc (s : string) :
  s <> EmptyString -> exists s' x, s = (s' ++ String x EmptyString)%string.
Proof.
  induction s as [|a s IH]; intro H; [contradiction|].
  destruct s as [|a' s].
  - exists EmptyString, a; reflexivity.
  - destruct IH as [s' [x E]]; [discriminate|].
    exists (String a s'), x; simpl; rewrite <- E; reflexivity.
Qed.

Lemma dot_rejected_all (x : ascii) (d : Z) :
  0 <= d <= 9 -> int_of_str (String x ("." ++ str d)) = Raise ValueError.
Proof.
  intro H.
  assert (Hall : forallb (fun n => forallb (fun k => dot_rejected (ascii_of_nat n) (Z.of_nat k))
                                           (seq 0 10))
                         (seq 0 256) = true) by (vm_compute; reflexivity).
  rewrite forallb_forall in Hall.
  specialize (Hall (nat_of_ascii x)).
  rewrite ascii_nat_embedding in Hall.
  assert (Hx : In (nat_of_ascii x) (seq 0 256))
    by (apply in_seq; pose proof (nat_ascii_bounded x); lia).
  apply Hall in Hx. rewrite forallb_forall in Hx.
  specialize (Hx (Z.to_nat d)). rewrite Z2Nat.id in Hx by lia.
  assert (Hd : In (Z.to_nat d) (seq 0 10)) by (apply in_seq; lia).
  apply Hx in Hd. unfold dot_rejected in Hd.
  destruct (int_of_str (String x ("." ++ str d))) as [n|[]]; try discriminate; reflexivity.
Qed.

Lemma dot2_rejected_all (d : Z) :
  10 <= d <= 99 ->
  String.length (str d) = 2%nat /\ int_of_str ("." ++ str d) = Raise ValueError.
Proof.
  intro H.
  assert (Hall : forallb (fun n => dot2_rejected (Z.of_nat n)) (seq 10 90) = true)
    by (vm_compute; reflexivity).
  rewrite forallb_forall in Hall.
  specialize (Hall (Z.to_nat d)). rewrite Z2Nat.id in Hall by lia.
  assert (Hd : In (Z.to_nat d) (seq 10 90)) by (apply in_seq; lia).
  apply Hall in Hd. unfold dot2_rejected in Hd.
  apply andb_true_iff in Hd; destruct Hd as [H1 H2].
  split; [apply Nat.eqb_eq, H1|].
  destruct (int_of_str ("." ++ str d)) as [n|[]]; try discriminate; reflexivity.
Qed.

Lemma one_digit_octet (d : Z) : 0 <= d <= 9 -> String.length (str d) = 1%nat.
Proof.
  intro H.
  assert (Hall : forallb (fun n => (String.length (str (Z.of_nat n)) =? 1)%nat) (seq 0 10)
                 = true) by (vm_compute; reflexivity).
  rewrite forallb_forall in Hall.
  specialize (Hall (Z.to_nat d)). rewrite Z2Nat.id in Hall by lia.
  apply Nat.eqb_eq, Hall, in_seq; lia.
Qed.

Lemma last3_short_octet (a b c d : Z) :
  0 <= d <= 99 -> int_of_str (last3 (dotted a b c d)) = Raise ValueError.
Proof.
  intro H. unfold dotted.
  destruct (Z_le_gt_dec 10 d) as [Hd|Hd].
  - destruct (dot2_rejected_all d ltac:(lia)) as [Hl Hr].
    replace (str a ++ "." ++ str b ++ "." ++ str c ++ "." ++ str d)%string
      with ((str a ++ "." ++ str b ++ "." ++ str c) ++ ("." ++ str d))%string
      by (rewrite !append_assoc; reflexivity).
    rewrite last3_app; [exact Hr|]. simpl; rewrite Hl; reflexivity.
  - destruct (string_snoc (str a ++ "." ++ str b ++ "." ++ str c)) as [p [x E]].
    { destruct (str a); discriminate. }
    replace (str a ++ "." ++ str b ++ "." ++ str c ++ "." ++ str d)%string
      with ((str a ++ "." ++ str b ++ "." ++ str c) ++ ("." ++ str d))%string
      by (rewrite !append_assoc; reflexivity).
    rewrite E, append_assoc.
    rewrite last3_app.
    + apply dot_rejected_all; lia.
    + simpl. rewrite (one_digit_octet d) by lia. reflexivity.
Qed.

(** X16.  A discovered address whose last octet is below 100 stops the
    start-up: its last three characters contain a dot, so [int] raises
    [ValueError] in [getIPAddress2], and with it in the classification and
    the choice of the address to bind, whatever the command line. *)
Theorem getIPAddress2_short_octet_raises (a b c d : Z) (argv : list string) :
  0 <= d <= 99 ->
  getIPAddress2 (dotted a b c d) = Raise ValueError /\
  classify (dotted a b c d) = Raise ValueError /\
  bind_address argv (dotted a b c d) = Raise ValueError.
Proof.
  intro H.
  assert (E : getIPAddress2 (dotted a b c d) = Raise ValueError)
    by (unfold getIPAddress2; rewrite last3_short_octet by exact H; reflexivity).
  split; [exact E|].
  assert (E' : classify (dotted a b c d) = Raise ValueError)
    by (unfold classify; rewrite E; reflexivity).
  split; [exact E'|]. unfold bind_address; rewrite E'; reflexivity.
Qed.

Lemma getIPAddress2_short_octet_raises_witness :
  getIPAddress2 (dotted 192 168 1 7) = Raise ValueError /\
  classify (dotted 192 168 1 7) = Raise ValueError /\
  bind_address ["PyMataOSC_v4.py"%string; "LAN"%string] (dotted 192 168 1 7)
    = Raise ValueError.
Proof. apply (getIPAddress2_short_octet_raises 192 168 1 7); lia. Defined.

(** X17.  For a last octet of three digits the server is bound to the
    even-octet address of the pair, or to the odd-octet one when the first
    command-line argument is [LAN]; within [192.168.1.x] the choice is the
    same whichever member of the pair was discovered. *)
Theorem bind_address_by_parity (a b c d : Z) (argv : list string) :
  100 <= d <= 255 ->
  let paired := if Z.even d then d + 1 else d - 1 in
  bind_address argv (dotted a b c d) =
    Ok (if Bool.eqb (lan_requested argv) (Z.even d)
        then dotted 192 168 1 paired
        else dotted a b c d) /\
  bind_address argv (dotted 192 168 1 paired) = bind_address argv (dotted 192 168 1 d).
Proof.
  intros H paired.
  assert (Hp : 100 <= paired <= 255).
  { unfold paired; destruct (Z.even d) eqn:E.
    - assert (d <> 255) by (intros ->; discriminate). lia.
    - assert (d <> 100) by (intros ->; discriminate). lia. }
  assert (Hpe : Z.even paired = negb (Z.even d)).
  { unfold paired; destruct (Z.even d) eqn:E.
    - rewrite Z.even_add, E; reflexivity.
    - rewrite Z.even_sub, E; reflexivity. }
  unfold bind_address. rewrite !classify_three_digits by assumption.
  rewrite Hpe. unfold paired, lan_requested.
  destruct (Z.even d); cbn [negb bind_result].
  - replace (d + 1 - 1) with d by lia.
    destruct argv as [|p [|arg more]]; try (split; reflexivity).
    destruct (String.eqb arg "LAN"); split; reflexivity.
  - replace (d - 1 + 1) with d by lia.
    destruct argv as [|p [|arg more]]; try (split; reflexivity).
    destruct (String.eqb arg "LAN"); split; reflexivity.
Qed.

Lemma bind_address_by_parity_witness :
  bind_address ["PyMataOSC_v4.py"%string] (dotted 192 168 1 101) =
    Ok (if Bool.eqb (lan_requested ["PyMataOSC_v4.py"%string]) (Z.even 101)
        then dotted 192 168 1 100
        else dotted 192 168 1 101) /\
  bind_address ["PyMataOSC_v4.py"%string] (dotted 192 168 1 100)
  = bind_address ["PyMataOSC_v4.py"%string] (dotted 192 168 1 101).
Proof. apply (bind_address_by_parity 192 168 1 101 ["PyMataOSC_v4.py"%string]); lia. Defined.

(** ** Control-change handler: the last message wins *)

(** An iteration on a servo that an earlier iteration on the same
    controller has already calibrated ends as it would on the servo as it
    was before. *)
Lemma cc_servo_overwrites (w : World) (ccNum : Z) (c : Servo) (v1 v2 : Q) (b1 b2 b3 : Board) :
  exists b',
    cc_servo w ccNum (mkFrame (cur (snd (cc_servo w ccNum (mkFrame c v1 b1)))) v2 b2) =
    (fst (cc_servo w ccNum (mkFrame c v2 b3)),
     mkFrame (cur (snd (cc_servo w ccNum (mkFrame c v2 b3))))
             (ccVal (snd (cc_servo w ccNum (mkFrame c v2 b3)))) b').
Proof.
  unfold cc_servo, reverse_servo, Py.when, Py.bind, Py.get, Py.lift, Py.ret,
    set_ccVal, update_cur, send, Py.modify, map_value.
  cbn [cur ccVal brd fst snd].
  repeat case_head; eexists; reflexivity.
Qed.

(** Whether an iteration raises does not depend on the value it is given. *)
Lemma cc_servo_errors_agree (w : World) (ccNum : Z) (c : Servo) (v1 v2 : Q) (b1 b2 : Board) :
  fst (cc_servo w ccNum (mkFrame c v1 b1)) = fst (cc_servo w ccNum (mkFrame c v2 b2)).
Proof.
  unfold cc_servo, reverse_servo, Py.when, Py.bind, Py.get, Py.lift, Py.ret,
    set_ccVal, update_cur, send, Py.modify, map_value.
  cbn [cur ccVal brd fst snd].
  repeat case_head; reflexivity.
Qed.

Lemma cc_loop_overwrites (w : World) (ccNum : Z) (cs : list Servo) :
  forall (v1 v2 : Q) (b1 b2 b3 : Board),
  exists b',
    cc_loop w ccNum (servos (snd (cc_loop w ccNum cs v1 b1))) v2 b2 =
    (fst (cc_loop w ccNum cs v2 b3),
     mkLoop (servos (snd (cc_loop w ccNum cs v2 b3)))
            (l_ccVal (snd (cc_loop w ccNum cs v2 b3))) b').
Proof.
  induction cs as [|c rest IH]; intros v1 v2 b1 b2 b3; simpl.
  - eexists; reflexivity.
  - destruct (cc_servo_overwrites w ccNum c v1 v2 b1 b2 b3) as [b' E].
    pose proof (cc_servo_errors_agree w ccNum c v1 v2 b1 b3) as Hr.
    destruct (cc_servo w ccNum (mkFrame c v1 b1)) as [r1 f1].
    destruct (cc_servo w ccNum (mkFrame c v2 b3)) as [r2 f2].
    cbn [fst snd] in *. subst r2.
    destruct r1 as [[]|e].
    + destruct (IH (ccVal f1) (ccVal f2) (brd f1) b' (brd f2)) as [b'' E'].
      destruct (cc_loop w ccNum rest (ccVal f1) (brd f1)) as [ra la].
      destruct (cc_loop w ccNum rest (ccVal f2) (brd f2)) as [rb lb].
      cbn [fst snd servos l_ccVal] in *. simpl.
      rewrite E; cbn [cur ccVal brd]. rewrite E'.
      eexists; reflexivity.
    + cbn [fst snd servos l_ccVal]. simpl. rewrite E.
      eexists; reflexivity.
Qed.

(** X18.  On one controller the last message wins: after two
    control-change messages with the same controller number the
    configuration is the one the second message alone would have produced,
    and the second message ends as it would have ended alone.  (Taking both
    values equal gives back that repeating a message changes nothing.) *)
Theorem cc_handler_last_wins (chan1 chan2 ccNum v1 v2 : Z) (w : World) :
  config (snd (cc_handler [chan2; ccNum; v2] (snd (cc_handler [chan1; ccNum; v1] w)))) =
  config (snd (cc_handler [chan2; ccNum; v2] w)) /\
  fst (cc_handler [chan2; ccNum; v2] (snd (cc_handler [chan1; ccNum; v1] w))) =
  fst (cc_handler [chan2; ccNum; v2] w).
Proof.
  rewrite (cc_handler_unfold chan1 ccNum v1 [] w).
  destruct (board w) as [b|] eqn:Hb; [|cbn [snd]; split; reflexivity].
  pose proof (cc_loop_overwrites w ccNum (servo (config w)) (inject_Z v1) (inject_Z v2) b)
    as Hover.
  rewrite (cc_handler_unfold chan2 ccNum v2 [] w), Hb.
  assert (Hgen : forall bmid l1,
            servos l1 = servos (snd (cc_loop w ccNum (servo (config w)) (inject_Z v1) b)) ->
            config (snd (cc_handler [chan2; ccNum; v2] (with_state (servos l1) bmid w))) =
            config (snd match cc_loop w ccNum (servo (config w)) (inject_Z v2) b with
                        | (Ok _, l) =>
                            let (r, b') := cc_stepper w ccNum (l_ccVal l) (l_brd l) in
                            (r, with_state (servos l) b' w)
                        | (Raise e, l) => (Raise e, with_state (servos l) (l_brd l) w)
                        end) /\
            fst (cc_handler [chan2; ccNum; v2] (with_state (servos l1) bmid w)) =
            fst match cc_loop w ccNum (servo (config w)) (inject_Z v2) b with
                | (Ok _, l) =>
                    let (r, b') := cc_stepper w ccNum (l_ccVal l) (l_brd l) in
                    (r, with_state (servos l) b' w)
                | (Raise e, l) => (Raise e, with_state (servos l) (l_brd l) w)
                end).
  { intros bmid l1 Hl1.
    rewrite cc_handler_unfold. cbn [board with_state config servo set_servo].
    rewrite (cc_loop_ext (with_state (servos l1) bmid w) w) by reflexivity.
    destruct (Hover bmid b) as [b' E]. rewrite <- Hl1 in E. rewrite E.
    destruct (cc_loop w ccNum (servo (config w)) (inject_Z v2) b) as [[[]|e] l2];
      cbn [fst snd servos l_ccVal l_brd].
    - pose proof (cc_stepper_ext (with_state (servos l1) bmid w) w ccNum (l_ccVal l2) b'
                    (l_brd l2) eq_refl eq_refl eq_refl) as Hf.
      destruct (cc_stepper (with_state (servos l1) bmid w) ccNum (l_ccVal l2) b') as [ra ba].
      destruct (cc_stepper w ccNum (l_ccVal l2) (l_brd l2)) as [rb bb].
      cbn [fst snd] in *. split; [reflexivity|exact Hf].
    - split; reflexivity. }
  destruct (cc_loop w ccNum (servo (config w)) (inject_Z v1) b) as [[[]|e] l1] eqn:Hl1.
  - destruct (cc_stepper w ccNum (l_ccVal l1) (l_brd l1)) as [r bs]. cbn [snd] in *.
    apply Hgen; reflexivity.
  - cbn [snd] in *. apply Hgen; reflexivity.
Qed.

(** ** Calibrating, then playing *)



